(** * split_engine.py: section extraction and header harvesting

    A shallow embedding of [src/src-tauri/split_engine.py].  Python [str]
    values are modelled as Rocq [string]s (sequences of ASCII characters);
    [None] / a string for the optional end marker is an [option string]. *)

From Stdlib Require Import String Ascii List Arith Lia Bool.
Import ListNotations.
Open Scope string_scope.


(** ** Python string primitives *)

Definition nl : ascii := "010"%char.

(** [str.split('\n')]: the separator splits, an empty string gives [[""]]. *)
Fixpoint split_nl (s : string) : list string :=
  match s with
  | EmptyString => [EmptyString]
  | String c rest =>
      if Ascii.eqb c nl then EmptyString :: split_nl rest
      else match split_nl rest with
           | h :: t => String c h :: t
           | [] => [String c EmptyString]
           end
  end.

(** ['\n'.join(xs)]. *)
Fixpoint join_nl (xs : list string) : string :=
  match xs with
  | [] => EmptyString
  | [x] => x
  | x :: rest => x ++ String nl (join_nl rest)
  end.

(** [sub in s]: substring containment ([""] is in every string). *)
Fixpoint contains (sub s : string) : bool :=
  prefix sub s ||
  match s with
  | EmptyString => false
  | String _ rest => contains sub rest
  end.

(** [s.startswith(p)]. *)
Definition startswith (s p : string) : bool := prefix p s.

(** The ASCII characters [str.strip()] removes: space, \t, \n, \x0b, \x0c,
    \r and the separators \x1c-\x1f. *)
Definition is_space (c : ascii) : bool :=
  let n := nat_of_ascii c in
  Nat.eqb n 32 || (Nat.leb 9 n && Nat.leb n 13) || (Nat.leb 28 n && Nat.leb n 31).

Fixpoint lstrip (s : string) : string :=
  match s with
  | EmptyString => EmptyString
  | String c rest => if is_space c then lstrip rest else s
  end.

(** [s.rstrip()]: a character survives unless it and everything after it
    is whitespace. *)
Fixpoint rstrip (s : string) : string :=
  match s with
  | EmptyString => EmptyString
  | String c rest =>
      let r := rstrip rest in
      if is_space c && String.eqb r EmptyString then EmptyString
      else String c r
  end.

(** [s.strip()]. *)
Definition strip (s : string) : string := rstrip (lstrip s).

(** Python truthiness of a string: non-empty. *)
Definition truthy (s : string) : bool :=
  match s with EmptyString => false | _ => true end.

(** [lines[a:b]] for [a <= b]. *)
Definition py_slice {A} (l : list A) (a b : nat) : list A :=
  firstn (b - a) (skipn a l).

(** ** [extract_section(content, start_marker, end_marker=None)] *)

Definition extract_section (content start_marker : string)
    (end_marker : option string) : string :=
  let lines := split_nl content in
  (* for i, line in enumerate(lines): if start_marker in line: break *)
  let start_idx :=
    find (fun i => contains start_marker (nth i lines EmptyString))
         (seq 0 (length lines)) in
  match start_idx with
  | None => EmptyString
  | Some start_idx =>
      match end_marker with
      | None => join_nl (skipn start_idx lines)
      | Some end_marker =>
          (* for i in range(start_idx + 1, len(lines)) *)
          let end_idx :=
            find (fun i => contains end_marker (nth i lines EmptyString))
                 (seq (start_idx + 1) (length lines - (start_idx + 1))) in
          match end_idx with
          | None => join_nl (skipn start_idx lines)
          | Some end_idx => join_nl (py_slice lines start_idx end_idx)
          end
      end
  end.

(** ** [extract_imports(content)] *)

(** The loop body of [extract_imports] over the remaining lines: a line is
    appended when it starts with ["use "] or ["//"]; otherwise the loop
    breaks when [line.strip() and not line.strip().startswith('//')]; in
    every other case the line is skipped. *)
Fixpoint harvest (lines : list string) : list string :=
  match lines with
  | [] => []
  | line :: rest =>
      if startswith line "use " || startswith line "//" then
        line :: harvest rest
      else if truthy (strip line) && negb (startswith (strip line) "//") then
        []
      else harvest rest
  end.

Definition extract_imports (content : string) : string :=
  join_nl (harvest (split_nl content)).

(** The line that makes the loop [break]. *)
Definition included (line : string) : bool :=
  startswith line "use " || startswith line "//".

Definition terminates (line : string) : bool :=
  negb (included line) &&
  truthy (strip line) && negb (startswith (strip line) "//").

(** ** [main()]: the orchestrator *)

(** The environment of a run: the directories that exist, the lines printed
    so far, and the answers of the operating system that the code cannot
    see in advance: whether a file cannot be opened or decoded for reading
    ([read_err]: a directory, no permission, bytes that are not UTF-8),
    whether [os.makedirs] fails ([dir_err]: a regular file in the way, no
    permission), whether [open(path, 'w')] fails ([open_err]), whether
    writing to the opened file fails after it was truncated ([write_fail]:
    disk full), and whether standard output is closed. *)
Record env := mkEnv {
  dirs : list string;
  stdout : list string;
  read_err : string -> bool;
  dir_err : string -> bool;
  open_err : string -> bool;
  write_fail : string -> bool;
  stdout_closed : bool
}.

(** [fs] maps a path to the text stored there.  Paths are normalised, as
    [pathlib.Path] builds them: no repeated or trailing ['/']. *)
Record world := mkWorld {
  fs : string -> option string;
  env_of : env
}.

Definition with_stdout (e : env) (out : list string) : env :=
  mkEnv (dirs e) out (read_err e) (dir_err e) (open_err e) (write_fail e)
        (stdout_closed e).

Definition with_dirs (e : env) (ds : list string) : env :=
  mkEnv ds (stdout e) (read_err e) (dir_err e) (open_err e) (write_fail e)
        (stdout_closed e).

(** A run ends normally or with an uncaught exception; what was done before
    the exception (lines printed, directories and files made) stays. *)
Inductive outcome (A : Type) : Type :=
| Ok (a : A) (w : world)
| Raise (w : world).
Arguments Ok {A}.
Arguments Raise {A}.

Definition M (A : Type) : Type := world -> outcome A.

Definition ret {A} (a : A) : M A := fun w => Ok a w.

Definition bind {A B} (m : M A) (f : A -> M B) : M B :=
  fun w => match m w with
           | Ok a w' => f a w'
           | Raise w' => Raise w'
           end.

Notation "x <- m ;; k" := (bind m (fun x => k))
  (at level 61, m at next level, right associativity).
Notation "m ;;; k" := (bind m (fun _ => k))
  (at level 61, right associativity).

(** [print(s)]. *)
Definition print (s : string) : M unit :=
  fun w => if stdout_closed (env_of w) then Raise w
           else Ok tt (mkWorld (fs w)
                         (with_stdout (env_of w) (app (stdout (env_of w)) [s]))).

Definition cr : ascii := "013"%char.

(** Universal newlines of text-mode reading: ["\r\n"] and a lone ["\r"]
    both become ["\n"]. *)
Fixpoint univ_newlines (s : string) : string :=
  match s with
  | EmptyString => EmptyString
  | String c rest =>
      if Ascii.eqb c cr then
        match rest with
        | String d rest' =>
            if Ascii.eqb d nl then String nl (univ_newlines rest')
            else String nl (univ_newlines rest)
        | EmptyString => String nl EmptyString
        end
      else String c (univ_newlines rest)
  end.

(** [read_file(path)]: [open(path, 'r', encoding='utf-8').read()]. *)
Definition read_file (path : string) : M string :=
  fun w => if read_err (env_of w) path then Raise w
           else match fs w path with
                | Some c => Ok (univ_newlines c) w
                | None => Raise w
                end.

Definition update_fs (f : string -> option string) (p : string) (c : string) :=
  fun q => if String.eqb q p then Some c else f q.

(** [os.path.dirname(p)]: the part up to the last ['/'], with its trailing
    slashes removed unless it consists of slashes only. *)
Fixpoint has_slash (s : string) : bool :=
  match s with
  | EmptyString => false
  | String c rest => Ascii.eqb c "/"%char || has_slash rest
  end.

Fixpoint head_part (s : string) : string :=
  match s with
  | EmptyString => EmptyString
  | String c rest =>
      if has_slash rest then String c (head_part rest)
      else if Ascii.eqb c "/"%char then String c EmptyString
      else EmptyString
  end.

Fixpoint all_slash (s : string) : bool :=
  match s with
  | EmptyString => true
  | String c rest => Ascii.eqb c "/"%char && all_slash rest
  end.

Fixpoint rstrip_slash (s : string) : string :=
  match s with
  | EmptyString => EmptyString
  | String c rest =>
      if all_slash s then EmptyString else String c (rstrip_slash rest)
  end.

Definition dirname (p : string) : string :=
  let head := head_part p in
  if truthy head && negb (all_slash head) then rstrip_slash head else head.

(** The directories [os.makedirs(d)] makes: every non-empty prefix of [d]
    that ends before a ['/'], and [d] itself. *)
Fixpoint dir_chain_aux (acc s : string) : list string :=
  match s with
  | EmptyString => [acc]
  | String c rest =>
      if Ascii.eqb c "/"%char then
        app (if truthy acc then [acc] else [])
            (dir_chain_aux (acc ++ String c EmptyString) rest)
      else dir_chain_aux (acc ++ String c EmptyString) rest
  end.

Definition dir_chain (d : string) : list string := dir_chain_aux EmptyString d.

Fixpoint add_dirs (ds l : list string) : list string :=
  match l with
  | [] => ds
  | d :: rest =>
      add_dirs (if existsb (String.eqb d) ds then ds else d :: ds) rest
  end.

(** [os.makedirs(d, exist_ok=True)]: raises for [d = ''] and when the
    system refuses. *)
Definition makedirs (d : string) : M unit :=
  fun w => if String.eqb d EmptyString || dir_err (env_of w) d then Raise w
           else Ok tt (mkWorld (fs w)
                         (with_dirs (env_of w) (add_dirs (dirs (env_of w)) (dir_chain d)))).

(** [write_file(path, content)]: [makedirs(dirname(path))], then
    [open(path, 'w')] (which truncates) and [write]. *)
Definition write_file (path content : string) : M unit :=
  makedirs (dirname path) ;;;
  (fun w => if open_err (env_of w) path then Raise w
            else if write_fail (env_of w) path then
              Raise (mkWorld (update_fs (fs w) path EmptyString) (env_of w))
            else Ok tt (mkWorld (update_fs (fs w) path content) (env_of w))).

(** The triple-quoted Python literals of [main], with each double quote of
    the source written as a tilde (restored by [untilde]). *)
Fixpoint untilde (s : string) : string :=
  match s with
  | EmptyString => EmptyString
  | String c rest =>
      String (if Ascii.eqb c "~"%char then "034"%char else c) (untilde rest)
  end.

Definition common_imports : string := "use std::path::{Path, PathBuf};
use anyhow::{Context, Result};
use crate::ffui_core::domain::*;
use crate::ffui_core::settings::AppSettings;
use super::state::*;
".

Definition mod_content_raw : string := "//! Transcoding engine split into modular components.
//!
//! - state: Engine state management, queue persistence, listeners
//! - worker: Worker thread pool and job scheduling
//! - ffmpeg_args: FFmpeg command-line argument generation
//! - job_runner: Job execution logic, progress tracking
//! - smart_scan: Smart Scan batch processing
//! - tests: All test cases

mod state;
mod worker;
mod ffmpeg_args;
mod job_runner;
mod smart_scan;

#[cfg(test)]
mod tests;

use std::collections::{HashMap, HashSet, VecDeque, hash_map::DefaultHasher};
use std::fs;
use std::hash::{Hash, Hasher};
use std::path::{Path, PathBuf};
use std::sync::atomic::{AtomicU64, Ordering};
use std::sync::{Arc, Mutex};
use std::time::{SystemTime, UNIX_EPOCH};

use anyhow::{Context, Result};

use crate::ffui_core::domain::{
    AutoCompressProgress, AutoCompressResult, FFmpegPreset, JobSource, JobStatus, JobType,
    MediaInfo, QueueState, SmartScanConfig, TranscodeJob,
};
use crate::ffui_core::monitor::{CpuUsageSnapshot, GpuUsageSnapshot, sample_cpu_usage, sample_gpu_usage};
use crate::ffui_core::settings::{self, AppSettings, DownloadedToolInfo, DownloadedToolState};
use crate::ffui_core::tools::{ExternalToolKind, ExternalToolStatus, ensure_tool_available, last_tool_download_metadata, tool_status};

pub(crate) use state::{Inner, EngineState, restore_jobs_from_snapshot};
use state::{snapshot_queue_state, notify_queue_listeners, restore_jobs_from_persisted_queue};

#[derive(Clone)]
pub struct TranscodingEngine {
    inner: Arc<Inner>,
}

impl TranscodingEngine {
    pub fn new() -> Result<Self> {
        let presets = settings::load_presets().unwrap_or_default();
        let settings = settings::load_settings().unwrap_or_default();
        let inner = Arc::new(Inner::new(presets, settings));
        restore_jobs_from_persisted_queue(&inner);
        worker::spawn_worker(inner.clone());
        Ok(Self { inner })
    }

    fn next_job_id(&self) -> String {
        self.inner
            .next_job_id
            .fetch_add(1, Ordering::SeqCst)
            .to_string()
    }

    pub fn queue_state(&self) -> QueueState {
        snapshot_queue_state(&self.inner)
    }

    pub fn register_queue_listener<F>(&self, listener: F)
    where
        F: Fn(QueueState) + Send + Sync + 'static,
    {
        let mut listeners = self
            .inner
            .queue_listeners
            .lock()
            .expect(~queue listeners lock poisoned~);
        listeners.push(Arc::new(listener));
    }

    pub fn register_smart_scan_listener<F>(&self, listener: F)
    where
        F: Fn(AutoCompressProgress) + Send + Sync + 'static,
    {
        let mut listeners = self
            .inner
            .smart_scan_listeners
            .lock()
            .expect(~smart scan listeners lock poisoned~);
        listeners.push(Arc::new(listener));
    }

    fn notify_listeners(&self) {
        notify_queue_listeners(&self.inner);
    }

    pub fn presets(&self) -> Vec<FFmpegPreset> {
        let state = self.inner.state.lock().expect(~engine state poisoned~);
        state.presets.clone()
    }

    pub fn save_preset(&self, preset: FFmpegPreset) -> Result<Vec<FFmpegPreset>> {
        let mut state = self.inner.state.lock().expect(~engine state poisoned~);
        if let Some(existing) = state.presets.iter_mut().find(|p| p.id == preset.id) {
            *existing = preset;
        } else {
            state.presets.push(preset);
        }
        settings::save_presets(&state.presets)?;
        Ok(state.presets.clone())
    }

    pub fn delete_preset(&self, preset_id: &str) -> Result<Vec<FFmpegPreset>> {
        let mut state = self.inner.state.lock().expect(~engine state poisoned~);
        state.presets.retain(|p| p.id != preset_id);
        settings::save_presets(&state.presets)?;
        Ok(state.presets.clone())
    }

    pub fn settings(&self) -> AppSettings {
        let state = self.inner.state.lock().expect(~engine state poisoned~);
        state.settings.clone()
    }

    pub fn save_settings(&self, new_settings: AppSettings) -> Result<AppSettings> {
        let mut state = self.inner.state.lock().expect(~engine state poisoned~);
        state.settings = new_settings.clone();
        settings::save_settings(&state.settings)?;
        Ok(new_settings)
    }

    fn record_tool_download(&self, kind: ExternalToolKind, binary_path: &str) {
        job_runner::record_tool_download_with_inner(&self.inner, kind, binary_path);
    }

    // All other public methods forward to appropriate modules
    pub fn enqueue_transcode_job(
        &self,
        filename: String,
        job_type: JobType,
        source: JobSource,
        original_size_mb: f64,
        original_codec: Option<String>,
        preset_id: String,
    ) -> TranscodeJob {
        worker::enqueue_transcode_job(
            &self.inner,
            filename,
            job_type,
            source,
            original_size_mb,
            original_codec,
            preset_id,
        )
    }

    pub fn cancel_job(&self, job_id: &str) -> bool {
        worker::cancel_job(&self.inner, job_id)
    }

    pub fn wait_job(&self, job_id: &str) -> bool {
        worker::wait_job(&self.inner, job_id)
    }

    pub fn resume_job(&self, job_id: &str) -> bool {
        worker::resume_job(&self.inner, job_id)
    }

    pub fn restart_job(&self, job_id: &str) -> bool {
        worker::restart_job(&self.inner, job_id)
    }

    pub fn reorder_waiting_jobs(&self, ordered_ids: Vec<String>) -> bool {
        worker::reorder_waiting_jobs(&self.inner, ordered_ids)
    }

    pub fn cpu_usage(&self) -> CpuUsageSnapshot {
        sample_cpu_usage()
    }

    pub fn gpu_usage(&self) -> GpuUsageSnapshot {
        sample_gpu_usage()
    }

    pub fn external_tool_statuses(&self) -> Vec<ExternalToolStatus> {
        let state = self.inner.state.lock().expect(~engine state poisoned~);
        let tools = &state.settings.tools;
        vec![
            tool_status(ExternalToolKind::Ffmpeg, tools),
            tool_status(ExternalToolKind::Ffprobe, tools),
            tool_status(ExternalToolKind::Avifenc, tools),
        ]
    }

    pub fn smart_scan_defaults(&self) -> SmartScanConfig {
        let state = self.inner.state.lock().expect(~engine state poisoned~);
        state.settings.smart_scan_defaults.clone()
    }

    pub fn update_smart_scan_defaults(&self, config: SmartScanConfig) -> Result<SmartScanConfig> {
        let mut state = self.inner.state.lock().expect(~engine state poisoned~);
        state.settings.smart_scan_defaults = config.clone();
        settings::save_settings(&state.settings)?;
        Ok(config)
    }

    pub fn run_auto_compress(
        &self,
        root_path: String,
        config: SmartScanConfig,
    ) -> Result<AutoCompressResult> {
        smart_scan::run_auto_compress(&self.inner, self.clone(), root_path, config)
    }

    pub fn smart_scan_batch_summary(&self, batch_id: &str) -> Option<AutoCompressResult> {
        smart_scan::smart_scan_batch_summary(&self.inner, batch_id)
    }

    pub fn inspect_media(&self, path: String) -> Result<String> {
        job_runner::inspect_media(&self.inner, path)
    }
}

fn current_time_millis() -> u64 {
    SystemTime::now()
        .duration_since(UNIX_EPOCH)
        .unwrap_or_default()
        .as_millis() as u64
}
".

Definition mod_content : string := untilde mod_content_raw.

Definition engine_rs (base_dir : string) : string :=
  base_dir ++ "/src/ffui_core/engine.rs".

Definition engine_dir (base_dir : string) : string :=
  base_dir ++ "/src/ffui_core/engine".

Definition manifest_path (base_dir : string) : string :=
  engine_dir base_dir ++ "/mod.rs".

Definition main (base_dir : string) : M unit :=
  print ("Reading " ++ engine_rs base_dir ++ "...") ;;;
  content <- read_file (engine_rs base_dir) ;;
  let _ := common_imports in
  let worker_section :=
    extract_section content "fn spawn_worker" (Some "fn process_transcode_job") in
  print "Creating engine/mod.rs..." ;;;
  write_file (manifest_path base_dir) mod_content ;;;
  print "Created engine/mod.rs" ;;;
  print "Manual splitting required due to file complexity." ;;;
  print "Please continue with manual file extraction or use a proper AST parser.".

Example ex_sec1 : extract_section (join_nl ["a"; "b"]) "zzz" None = "".
Proof. reflexivity. Qed.
Example ex_sec2 :
  extract_section (join_nl ["fn a()"; "body"; "fn b()"]) "fn a" None
  = join_nl ["fn a()"; "body"; "fn b()"].
Proof. reflexivity. Qed.
Example ex_sec3 :
  extract_section (join_nl ["x"; "START"; "mid"; "END"; "y"]) "START" (Some "END")
  = join_nl ["START"; "mid"].
Proof. reflexivity. Qed.
Example ex_sec4 :
  extract_section (join_nl ["x"; "START"; "mid"; "END"; "y"]) "START" (Some "NOPE")
  = join_nl ["START"; "mid"; "END"; "y"].
Proof. reflexivity. Qed.
Example ex_imp1 :
  extract_imports (join_nl ["use a;"; "// c"; ""; "  // d"; "fn main() {}"; "use z;"])
  = join_nl ["use a;"; "// c"].
Proof. reflexivity. Qed.
Example ex_strip : strip (String " " (String "011" "ab c  ")) = "ab c".
Proof. reflexivity. Qed.

Example ex_dirname1 : dirname "a/b/mod.rs" = "a/b".
Proof. reflexivity. Qed.
Example ex_dirname2 : dirname "mod.rs" = "".
Proof. reflexivity. Qed.
Example ex_dirname3 : dirname "/x" = "/" /\ dirname "a//b" = "a".
Proof. split; reflexivity. Qed.
Example ex_dir_chain : dir_chain "/x/y" = ["/x"; "/x/y"] /\ dir_chain "a/b" = ["a"; "a/b"].
Proof. split; reflexivity. Qed.
Example ex_univ_newlines :
  univ_newlines (String "a" (String cr (String nl (String "b" (String cr "c")))))
  = String "a" (String nl (String "b" (String nl "c"))).
Proof. reflexivity. Qed.

(** ** Line splitting and joining *)

Lemma split_nl_nonempty (s : string) : split_nl s <> [].
Proof.
  induction s as [|c s IH]; simpl; [discriminate|].
  destruct (Ascii.eqb c nl); [discriminate|].
  destruct (split_nl s); discriminate.
Qed.

Lemma join_nl_cons_string (c : ascii) (h : string) (t : list string) :
  join_nl (String c h :: t) = String c (join_nl (h :: t)).
Proof. destruct t; reflexivity. Qed.

Lemma join_nl_cons2 (x y : string) (t : list string) :
  join_nl (x :: y :: t) = x ++ String nl (join_nl (y :: t)).
Proof. reflexivity. Qed.

Lemma join_split_nl (s : string) : join_nl (split_nl s) = s.
Proof.
  induction s as [|c s IH]; [reflexivity|]. simpl.
  destruct (Ascii.eqb c nl) eqn:E.
  - apply Ascii.eqb_eq in E. subst c.
    pose proof (split_nl_nonempty s) as Hne.
    destruct (split_nl s) as [|h t] eqn:Hs; [contradiction|].
    rewrite join_nl_cons2, IH. reflexivity.
  - pose proof (split_nl_nonempty s) as Hne.
    destruct (split_nl s) as [|h t] eqn:Hs; [contradiction|].
    rewrite join_nl_cons_string, IH. reflexivity.
Qed.

(** A string without a line separator. *)
Fixpoint no_nl (s : string) : bool :=
  match s with
  | EmptyString => true
  | String c rest => negb (Ascii.eqb c nl) && no_nl rest
  end.

Lemma split_nl_no_nl (s : string) :
  forall x, In x (split_nl s) -> no_nl x = true.
Proof.
  induction s as [|c s IH]; simpl; intros x Hx.
  - destruct Hx as [<-|[]]; reflexivity.
  - destruct (Ascii.eqb c nl) eqn:E.
    + destruct Hx as [<-|Hx]; [reflexivity|]. now apply IH.
    + destruct (split_nl s) as [|h t] eqn:Hs.
      * destruct Hx as [<-|[]]. simpl. now rewrite E.
      * destruct Hx as [<-|Hx].
        -- simpl. rewrite E, (IH h); auto. now left.
        -- apply IH. now right.
Qed.

Lemma split_nl_app (x r : string) :
  no_nl x = true ->
  split_nl (x ++ r) =
  match split_nl r with
  | h :: t => (x ++ h) :: t
  | [] => [x]
  end.
Proof.
  induction x as [|c x IH]; simpl; intros Hx.
  - pose proof (split_nl_nonempty r) as Hne.
    destruct (split_nl r); [contradiction|reflexivity].
  - apply andb_prop in Hx as [Hc Hx].
    destruct (Ascii.eqb c nl); [discriminate|].
    rewrite (IH Hx).
    pose proof (split_nl_nonempty r) as Hne.
    destruct (split_nl r); [contradiction|reflexivity].
Qed.

Lemma append_empty_r (x : string) : x ++ EmptyString = x.
Proof. induction x; simpl; congruence. Qed.

Lemma split_nl_sep (r : string) : split_nl (String nl r) = EmptyString :: split_nl r.
Proof. reflexivity. Qed.

Lemma split_join_nl (l : list string) :
  l <> [] -> (forall x, In x l -> no_nl x = true) ->
  split_nl (join_nl l) = l.
Proof.
  induction l as [|x t IH]; intros Hne Hall; [contradiction|].
  destruct t as [|y t].
  - simpl. rewrite <- (append_empty_r x) at 1.
    rewrite split_nl_app by (apply Hall; now left). simpl.
    now rewrite append_empty_r.
  - rewrite join_nl_cons2, split_nl_app by (apply Hall; now left).
    rewrite split_nl_sep, IH; [now rewrite append_empty_r|discriminate|].
    intros z Hz. apply Hall. now right.
Qed.

(** ** Whitespace *)

Fixpoint all_space (s : string) : bool :=
  match s with
  | EmptyString => true
  | String c rest => is_space c && all_space rest
  end.

Definition starts_with_space (s : string) : bool :=
  match s with
  | EmptyString => false
  | String c _ => is_space c
  end.

Lemma lstrip_all_space (s : string) : all_space s = true -> lstrip s = EmptyString.
Proof.
  induction s as [|c s IH]; simpl; [reflexivity|].
  intros H. apply andb_prop in H as [Hc Hs]. rewrite Hc. now apply IH.
Qed.

Lemma rstrip_keep (a r : string) (c : ascii) :
  is_space c = false -> exists r', rstrip (a ++ String c r) = a ++ String c r'.
Proof.
  intros Hc. induction a as [|d a IH]; simpl.
  - rewrite Hc. simpl. now exists (rstrip r).
  - destruct IH as [r' Hr']. exists r'. rewrite Hr'.
    assert (Hne : String.eqb (a ++ String c r') EmptyString = false)
      by (destruct a; reflexivity).
    now rewrite Hne, andb_false_r.
Qed.

Lemma prefix_cons (a b : ascii) (s1 s2 : string) :
  prefix (String a s1) (String b s2) =
  if ascii_dec a b then prefix s1 s2 else false.
Proof. reflexivity. Qed.

Lemma startswith_slashes (r : string) :
  startswith (String "/" (String "/" r)) "//" = true.
Proof. destruct r; reflexivity. Qed.

Lemma space_not_included (c : ascii) (r : string) :
  is_space c = true -> included (String c r) = false.
Proof.
  intros Hc. unfold included, startswith.
  rewrite !prefix_cons.
  destruct (ascii_dec "u"%char c) as [<-|_]; [discriminate|].
  destruct (ascii_dec "/"%char c) as [<-|_]; [discriminate|].
  reflexivity.
Qed.

(** ** The header loop *)

Lemma harvest_cons (line : string) (rest : list string) :
  harvest (line :: rest) =
  if included line then line :: harvest rest
  else if truthy (strip line) && negb (startswith (strip line) "//") then []
  else harvest rest.
Proof. reflexivity. Qed.

Lemma harvest_sub (l : list string) :
  forall x, In x (harvest l) -> In x l /\ included x = true.
Proof.
  induction l as [|y l IH]; simpl; intros x Hx; [contradiction|].
  destruct (startswith y "use " || startswith y "//") eqn:Hy.
  - destruct Hx as [<-|Hx]; [split; [now left|exact Hy]|].
    destruct (IH x Hx). split; [now right|assumption].
  - destruct (truthy (strip y) && negb (startswith (strip y) "//"));
      [contradiction|].
    destruct (IH x Hx). split; [now right|assumption].
Qed.

Lemma harvest_all_included (l : list string) :
  (forall x, In x l -> included x = true) -> harvest l = l.
Proof.
  induction l as [|y l IH]; simpl; intros H; [reflexivity|].
  pose proof (H y (or_introl eq_refl)) as Hy. unfold included in Hy.
  rewrite Hy, IH; [reflexivity|]. intros x Hx. apply H. now right.
Qed.

Lemma harvest_no_terminator (l : list string) :
  forallb (fun x => negb (terminates x)) l = true ->
  harvest l = filter included l.
Proof.
  induction l as [|y l IH]; simpl; intros H; [reflexivity|].
  apply andb_prop in H as [Hy Hl]. unfold terminates, included in *.
  destruct (startswith y "use " || startswith y "//"); simpl in *.
  - now rewrite IH.
  - apply negb_true_iff in Hy. rewrite Hy. now apply IH.
Qed.

Lemma harvest_no_nl (content : string) :
  forall x, In x (harvest (split_nl content)) -> no_nl x = true.
Proof.
  intros x Hx. apply harvest_sub in Hx as [Hx _].
  now apply (split_nl_no_nl content).
Qed.

Lemma split_extract_imports (content : string) :
  harvest (split_nl content) <> [] ->
  split_nl (extract_imports content) = harvest (split_nl content).
Proof.
  intros Hne. unfold extract_imports.
  apply split_join_nl; [assumption|apply harvest_no_nl].
Qed.

Lemma harvest_reaches (l : list string) (i : nat) :
  i < length l -> included (nth i l EmptyString) = true ->
  forallb (fun x => negb (terminates x)) (firstn i l) = true ->
  In (nth i l EmptyString) (harvest l).
Proof.
  revert i. induction l as [|y l IH]; intros i Hi Hinc Hpre; simpl in Hi; [lia|].
  destruct i as [|i]; simpl in *.
  - unfold included in Hinc. rewrite Hinc. now left.
  - apply andb_prop in Hpre as [Hy Hpre]. unfold terminates, included in Hy.
    destruct (startswith y "use " || startswith y "//").
    + right. apply IH; [lia|assumption|assumption].
    + simpl in Hy. apply negb_true_iff in Hy. rewrite Hy.
      apply IH; [lia|assumption|assumption].
Qed.

(** ** Claims about the line indexer and the header harvester *)

(** C8: joining [text.split('\n')] with ['\n'] gives [text] back, and the
    empty text splits into one empty line. *)
Theorem split_nl_roundtrip (text : string) :
  join_nl (split_nl text) = text /\ split_nl EmptyString = [EmptyString].
Proof. split; [apply join_split_nl|reflexivity]. Qed.

(** C7: [extract_imports] is idempotent. *)
Theorem extract_imports_idempotent (content : string) :
  extract_imports (extract_imports content) = extract_imports content.
Proof.
  destruct (harvest (split_nl content)) as [|x t] eqn:H.
  - assert (E : extract_imports content = EmptyString)
      by (unfold extract_imports; now rewrite H).
    now rewrite E.
  - unfold extract_imports at 1.
    rewrite split_extract_imports by (rewrite H; discriminate).
    rewrite harvest_all_included; [reflexivity|].
    intros y Hy. now apply harvest_sub in Hy.
Qed.

(** C5 (as stated): a document where no line terminates the scan is not
    always returned unchanged: the blank line of ["use a\n\nuse b"] is
    dropped. *)
Lemma extract_imports_whole_doc_counterexample :
  ~ (forall content,
        forallb (fun x => negb (terminates x)) (split_nl content) = true ->
        extract_imports content = content).
Proof.
  intros H.
  specialize (H (join_nl ["use a"; EmptyString; "use b"]) eq_refl).
  discriminate H.
Qed.

(** C5 (amended): when no line terminates the scan, [extract_imports]
    returns the lines that start at column 0 with ["use "] or ["//"],
    in order, joined with ['\n']; this is the whole document when every
    line so starts. *)
Theorem extract_imports_no_terminator (content : string) :
  forallb (fun x => negb (terminates x)) (split_nl content) = true ->
  extract_imports content = join_nl (filter included (split_nl content)) /\
  (forallb included (split_nl content) = true ->
   extract_imports content = content).
Proof.
  intros Hnt. unfold extract_imports.
  rewrite harvest_no_terminator by assumption. split; [reflexivity|].
  intros Hall. rewrite <- (join_split_nl content) at 2. f_equal.
  pose proof (proj1 (forallb_forall _ _) Hall) as Hall'. clear Hall Hnt.
  rename Hall' into Hall.
  induction (split_nl content) as [|y l IH]; simpl; [reflexivity|].
  rewrite (Hall y (or_introl eq_refl)), IH; [reflexivity|].
  intros z Hz. apply Hall. now right.
Qed.

Lemma extract_imports_no_terminator_witness :
  forallb (fun x => negb (terminates x)) (split_nl (join_nl ["use a"; "// b"])) = true /\
  forallb included (split_nl (join_nl ["use a"; "// b"])) = true /\
  extract_imports (join_nl ["use a"; "// b"]) = join_nl ["use a"; "// b"].
Proof.
  split; [reflexivity|]. split; [reflexivity|].
  apply (extract_imports_no_terminator (join_nl ["use a"; "// b"]));
    reflexivity.
Defined.

(** The claim's reading of a terminating line for C6: non-blank, not a
    comment and not an import declaration, both recognised after
    left-trimming. *)
Definition claim_terminates (line : string) : bool :=
  truthy (strip line) && negb (startswith (lstrip line) "//") &&
  negb (startswith (lstrip line) "use ").

(** C6 (as stated): an import line recognised after left-trimming is not
    always harvested: ["  use x"] yields the empty header. *)
Lemma extract_imports_trimmed_use_counterexample :
  ~ (forall content i,
        i < length (split_nl content) ->
        startswith (lstrip (nth i (split_nl content) EmptyString)) "use " = true ->
        (forall j, j < i ->
           claim_terminates (nth j (split_nl content) EmptyString) = false) ->
        In (nth i (split_nl content) EmptyString)
           (split_nl (extract_imports content))).
Proof.
  intros H.
  specialize (H "  use x" 0 ltac:(simpl; lia) eq_refl
                (fun j Hj => ltac:(lia))).
  simpl in H. destruct H as [H|[]]. discriminate H.
Qed.

(** C6 (amended): a line that starts with ["use "] at column 0 (no
    trimming) and comes before the first line that terminates the scan is
    a line of the harvested header. *)
Theorem extract_imports_includes_use (content : string) (i : nat) :
  i < length (split_nl content) ->
  startswith (nth i (split_nl content) EmptyString) "use " = true ->
  forallb (fun x => negb (terminates x)) (firstn i (split_nl content)) = true ->
  In (nth i (split_nl content) EmptyString) (split_nl (extract_imports content)).
Proof.
  intros Hi Huse Hpre.
  assert (Hin : In (nth i (split_nl content) EmptyString)
                   (harvest (split_nl content))).
  { apply harvest_reaches; [assumption| |assumption].
    unfold included. now rewrite Huse. }
  rewrite split_extract_imports; [assumption|].
  intros E. rewrite E in Hin. contradiction.
Qed.

Lemma extract_imports_includes_use_witness :
  1 < length (split_nl (join_nl ["// header"; "use std::fs;"; "fn f() {}"])) /\
  startswith (nth 1 (split_nl (join_nl ["// header"; "use std::fs;"; "fn f() {}"]))
                EmptyString) "use " = true /\
  forallb (fun x => negb (terminates x))
    (firstn 1 (split_nl (join_nl ["// header"; "use std::fs;"; "fn f() {}"]))) = true /\
  In "use std::fs;"
     (split_nl (extract_imports (join_nl ["// header"; "use std::fs;"; "fn f() {}"]))).
Proof.
  split; [simpl; lia|]. split; [reflexivity|]. split; [reflexivity|].
  apply (extract_imports_includes_use
           (join_nl ["// header"; "use std::fs;"; "fn f() {}"]) 1);
    [simpl; lia|reflexivity|reflexivity].
Defined.

(** C10 (as stated): an import line with leading whitespace is not skipped;
    it ends the scan, so ["  use x\nuse y"] has an empty header. *)
Lemma extract_imports_indented_skip_counterexample :
  ~ (forall line rest,
        starts_with_space line = true ->
        (startswith (lstrip line) "use " || startswith (lstrip line) "//") = true ->
        harvest (line :: rest) = harvest rest).
Proof.
  intros H. specialize (H "  use x" ["use y"] eq_refl eq_refl).
  discriminate H.
Qed.

(** C10 (amended): every line of the harvested header starts at column 0
    with ["use "] or ["//"] (or the header is empty); whitespace-only lines
    and comment lines with leading whitespace are skipped without ending
    the scan, so the header need not be a prefix; an import line with
    leading whitespace ends the scan. *)
Theorem extract_imports_line_shape :
  (forall content line,
     In line (split_nl (extract_imports content)) ->
     included line = true \/ extract_imports content = EmptyString) /\
  (forall line rest,
     all_space line = true -> harvest (line :: rest) = harvest rest) /\
  (forall line rest,
     starts_with_space line = true ->
     startswith (lstrip line) "//" = true ->
     harvest (line :: rest) = harvest rest) /\
  (forall line rest,
     starts_with_space line = true ->
     startswith (lstrip line) "use " = true ->
     harvest (line :: rest) = []).
Proof.
  split; [|split; [|split]].
  - intros content line Hl.
    destruct (harvest (split_nl content)) as [|x t] eqn:H.
    + right. unfold extract_imports. now rewrite H.
    + left. rewrite split_extract_imports in Hl by (rewrite H; discriminate).
      now apply harvest_sub in Hl.
  - intros line rest Hsp. rewrite harvest_cons.
    destruct line as [|c r]; [reflexivity|].
    assert (Hc : is_space c = true) by (simpl in Hsp; now apply andb_prop in Hsp).
    pose proof (space_not_included c r Hc) as Hn. rewrite Hn. unfold strip. rewrite lstrip_all_space by assumption.
    reflexivity.
  - intros line rest Hsp Hcom. rewrite harvest_cons.
    destruct line as [|c r]; [discriminate|]. simpl in Hsp.
    pose proof (space_not_included c r Hsp) as Hn. rewrite Hn.
    unfold startswith in Hcom.
    destruct (lstrip (String c r)) as [|a [|b r']] eqn:Hls.
    { simpl in Hcom. discriminate Hcom. }
    { rewrite prefix_cons in Hcom.
      destruct (ascii_dec "/"%char a); simpl in Hcom; discriminate Hcom. }
    rewrite !prefix_cons in Hcom.
    destruct (ascii_dec "/"%char a) as [<-|]; [|discriminate].
    destruct (ascii_dec "/"%char b) as [<-|]; [|discriminate].
    destruct (rstrip_keep (String "/" EmptyString) r' "/"%char eq_refl) as [r'' Hr].
    unfold strip. rewrite Hls. cbn [String.append] in Hr.
    rewrite Hr, startswith_slashes. reflexivity.
  - intros line rest Hsp Huse. rewrite harvest_cons.
    destruct line as [|c r]; [discriminate|]. simpl in Hsp.
    pose proof (space_not_included c r Hsp) as Hn. rewrite Hn.
    unfold startswith in Huse.
    destruct (lstrip (String c r)) as [|a r'] eqn:Hls.
    { simpl in Huse. discriminate Huse. }
    rewrite prefix_cons in Huse.
    destruct (ascii_dec "u"%char a) as [<-|]; [|discriminate].
    destruct (rstrip_keep EmptyString r' "u"%char eq_refl) as [r'' Hr].
    unfold strip. rewrite Hls. cbn [String.append] in Hr. rewrite Hr. reflexivity.
Qed.

Lemma extract_imports_line_shape_witness :
  starts_with_space "  // d" = true /\
  startswith (lstrip "  // d") "//" = true /\
  harvest ["  // d"; "use y"] = harvest ["use y"].
Proof.
  split; [reflexivity|]. split; [reflexivity|].
  destruct extract_imports_line_shape as [_ [_ [H _]]].
  apply H; reflexivity.
Defined.

(** ** The two scans of [extract_section] *)

Lemma find_seq_some (f : nat -> bool) (n : nat) :
  forall a i,
  find f (seq a n) = Some i <->
  a <= i < a + n /\ f i = true /\ (forall j, a <= j < i -> f j = false).
Proof.
  induction n as [|n IH]; intros a i; simpl.
  - split; [discriminate|lia].
  - destruct (f a) eqn:Ha; split.
    + intros H. injection H as <-. repeat split; [lia|lia|assumption|lia].
    + intros [Hi [Hf Hj]].
      destruct (Nat.eq_dec i a) as [->|Hne]; [reflexivity|].
      rewrite Hj in Ha; [discriminate|lia].
    + intros H. apply IH in H as [Hi [Hf Hj]].
      repeat split; [lia|lia|assumption|].
      intros j Hj'. destruct (Nat.eq_dec j a) as [->|]; [assumption|].
      apply Hj. lia.
    + intros [Hi [Hf Hj]]. apply IH.
      destruct (Nat.eq_dec i a) as [->|Hne]; [congruence|].
      repeat split; [lia|lia|assumption|]. intros j Hj'. apply Hj. lia.
Qed.

Lemma find_seq_none (f : nat -> bool) (n : nat) :
  forall a,
  find f (seq a n) = None <-> (forall j, a <= j < a + n -> f j = false).
Proof.
  induction n as [|n IH]; intros a; simpl.
  - split; [lia|reflexivity].
  - destruct (f a) eqn:Ha; split.
    + discriminate.
    + intros H. rewrite H in Ha; [discriminate|lia].
    + intros H j Hj. destruct (Nat.eq_dec j a) as [->|]; [assumption|].
      apply (proj1 (IH (S a)) H). lia.
    + intros H. apply IH. intros j Hj. apply H. lia.
Qed.

(** [i] is the index of the first line at or after [a] on which [p]
    holds. *)
Definition first_from (p : string -> bool) (lines : list string) (a i : nat) : bool :=
  Nat.leb a i && Nat.ltb i (length lines) && p (nth i lines EmptyString) &&
  forallb (fun j => negb (p (nth j lines EmptyString))) (seq a (i - a)).

(** [p] holds on no line at or after [a]. *)
Definition none_from (p : string -> bool) (lines : list string) (a : nat) : bool :=
  forallb (fun j => negb (p (nth j lines EmptyString))) (seq a (length lines - a)).

Lemma first_from_find (p : string -> bool) (lines : list string) (a i : nat) :
  first_from p lines a i = true ->
  find (fun j => p (nth j lines EmptyString)) (seq a (length lines - a)) = Some i.
Proof.
  unfold first_from. intros H.
  apply andb_prop in H as [H Hall]. apply andb_prop in H as [H Hp].
  apply andb_prop in H as [Ha Hi].
  apply Nat.leb_le in Ha. apply Nat.ltb_lt in Hi.
  apply find_seq_some. repeat split; [lia|lia|assumption|].
  intros j Hj. pose proof (proj1 (forallb_forall _ _) Hall j) as Hj'.
  apply negb_true_iff. apply Hj'. apply in_seq. lia.
Qed.

Lemma none_from_find (p : string -> bool) (lines : list string) (a : nat) :
  none_from p lines a = true ->
  find (fun j => p (nth j lines EmptyString)) (seq a (length lines - a)) = None.
Proof.
  unfold none_from. intros Hall. apply find_seq_none. intros j Hj.
  apply negb_true_iff. apply (proj1 (forallb_forall _ _) Hall). apply in_seq. lia.
Qed.

Lemma first_from_zero_find (p : string -> bool) (lines : list string) (i : nat) :
  first_from p lines 0 i = true ->
  find (fun j => p (nth j lines EmptyString)) (seq 0 (length lines)) = Some i.
Proof.
  intros H. apply first_from_find in H. now rewrite Nat.sub_0_r in H.
Qed.

Lemma skipn_nth_cons {A} (l : list A) (i : nat) (d : A) :
  i < length l -> skipn i l = nth i l d :: skipn (S i) l.
Proof.
  revert i. induction l as [|x l IH]; intros i Hi; simpl in Hi; [lia|].
  destruct i as [|i]; [reflexivity|]. simpl. apply IH. lia.
Qed.

Lemma contains_empty (sub : string) : contains sub EmptyString = true -> sub = EmptyString.
Proof. destruct sub; simpl; [reflexivity|discriminate]. Qed.

Lemma join_nl_cons_empty (x : string) (t : list string) :
  join_nl (x :: t) = EmptyString -> x = EmptyString.
Proof. destruct t; simpl; [auto|]. destruct x; [auto|discriminate]. Qed.

(** ** Claims about [extract_section] *)

(** C4: with the start marker found first at [start_idx] and no end marker,
    the section is every line from [start_idx] on, joined with ['\n']. *)
Theorem extract_section_no_end (content start_marker : string) (start_idx : nat) :
  first_from (contains start_marker) (split_nl content) 0 start_idx = true ->
  extract_section content start_marker None =
  join_nl (skipn start_idx (split_nl content)).
Proof.
  intros Hs. unfold extract_section. cbv zeta.
  rewrite (first_from_zero_find _ _ _ Hs). reflexivity.
Qed.

Lemma extract_section_no_end_witness :
  first_from (contains "fn a") (split_nl (join_nl ["fn a()"; "body"; "fn b()"])) 0 0 = true /\
  extract_section (join_nl ["fn a()"; "body"; "fn b()"]) "fn a" None =
  join_nl (skipn 0 (split_nl (join_nl ["fn a()"; "body"; "fn b()"]))).
Proof.
  split; [reflexivity|].
  apply (extract_section_no_end (join_nl ["fn a()"; "body"; "fn b()"]) "fn a" 0).
  reflexivity.
Defined.

(** C2: with the start marker found first at [start_idx] and the end marker
    found first at [end_idx] among the lines after [start_idx], the section
    is the lines [[start_idx, end_idx)] joined with ['\n']. *)
Theorem extract_section_bounded
    (content start_marker end_marker : string) (start_idx end_idx : nat) :
  first_from (contains start_marker) (split_nl content) 0 start_idx = true ->
  first_from (contains end_marker) (split_nl content) (start_idx + 1) end_idx = true ->
  extract_section content start_marker (Some end_marker) =
  join_nl (py_slice (split_nl content) start_idx end_idx).
Proof.
  intros Hs He. unfold extract_section. cbv zeta.
  rewrite (first_from_zero_find _ _ _ Hs), (first_from_find _ _ _ _ He).
  reflexivity.
Qed.

Lemma extract_section_bounded_witness :
  first_from (contains "START")
    (split_nl (join_nl ["x"; "START"; "mid"; "END"; "y"])) 0 1 = true /\
  first_from (contains "END")
    (split_nl (join_nl ["x"; "START"; "mid"; "END"; "y"])) (1 + 1) 3 = true /\
  extract_section (join_nl ["x"; "START"; "mid"; "END"; "y"]) "START" (Some "END") =
  join_nl (py_slice (split_nl (join_nl ["x"; "START"; "mid"; "END"; "y"])) 1 3).
Proof.
  split; [reflexivity|]. split; [reflexivity|].
  apply (extract_section_bounded (join_nl ["x"; "START"; "mid"; "END"; "y"])
           "START" "END" 1 3); reflexivity.
Defined.

(** C3: with the start marker found first at [start_idx] and the end marker
    on no later line, the result is the one without an end marker: every
    line from [start_idx] on. *)
Theorem extract_section_end_missing
    (content start_marker end_marker : string) (start_idx : nat) :
  first_from (contains start_marker) (split_nl content) 0 start_idx = true ->
  none_from (contains end_marker) (split_nl content) (start_idx + 1) = true ->
  extract_section content start_marker (Some end_marker) =
  extract_section content start_marker None /\
  extract_section content start_marker None =
  join_nl (skipn start_idx (split_nl content)).
Proof.
  intros Hs He. split; [|now apply extract_section_no_end].
  unfold extract_section. cbv zeta.
  rewrite (first_from_zero_find _ _ _ Hs), (none_from_find _ _ _ He).
  reflexivity.
Qed.

Lemma extract_section_end_missing_witness :
  first_from (contains "START")
    (split_nl (join_nl ["x"; "START"; "mid"; "END"; "y"])) 0 1 = true /\
  none_from (contains "NOPE")
    (split_nl (join_nl ["x"; "START"; "mid"; "END"; "y"])) (1 + 1) = true /\
  extract_section (join_nl ["x"; "START"; "mid"; "END"; "y"]) "START" (Some "NOPE") =
  extract_section (join_nl ["x"; "START"; "mid"; "END"; "y"]) "START" None.
Proof.
  split; [reflexivity|]. split; [reflexivity|].
  apply (extract_section_end_missing (join_nl ["x"; "START"; "mid"; "END"; "y"])
           "START" "NOPE" 1); reflexivity.
Defined.

(** C1 (as stated): an empty result does not always mean that no line
    contains the start marker: the empty marker is found in the single
    empty line of [""], and the section is [""]. *)
Lemma extract_section_empty_iff_counterexample :
  ~ (forall content start_marker end_marker,
        extract_section content start_marker end_marker = EmptyString <->
        (forall line, In line (split_nl content) ->
                      contains start_marker line = false)).
Proof.
  intros H. destruct (H EmptyString EmptyString None) as [H1 _].
  specialize (H1 eq_refl EmptyString (or_introl eq_refl)).
  discriminate H1.
Qed.

(** C1 (amended): for a non-empty start marker, [extract_section] returns
    [""] exactly when no line contains the start marker. *)
Theorem extract_section_empty_iff
    (content start_marker : string) (end_marker : option string) :
  String.eqb start_marker EmptyString = false ->
  extract_section content start_marker end_marker = EmptyString <->
  (forall line, In line (split_nl content) -> contains start_marker line = false).
Proof.
  intros Hne. unfold extract_section. cbv zeta.
  destruct (find (fun i => contains start_marker (nth i (split_nl content) EmptyString))
                 (seq 0 (length (split_nl content)))) as [i|] eqn:F.
  - apply find_seq_some in F as [Hi [Hc _]].
    assert (Hx : nth i (split_nl content) EmptyString <> EmptyString).
    { intros E. rewrite E in Hc. apply contains_empty in Hc. subst.
      discriminate Hne. }
    split.
    + intros Hr. exfalso. apply Hx.
      destruct end_marker as [em|].
      * destruct (find _ (seq (i + 1) _)) as [e|] eqn:Fe.
        -- apply find_seq_some in Fe as [He _].
           unfold py_slice in Hr.
           rewrite (skipn_nth_cons _ i EmptyString) in Hr by lia.
           replace (e - i) with (S (e - i - 1)) in Hr by lia.
           simpl in Hr. now apply join_nl_cons_empty in Hr.
        -- rewrite (skipn_nth_cons _ i EmptyString) in Hr by lia.
           now apply join_nl_cons_empty in Hr.
      * rewrite (skipn_nth_cons _ i EmptyString) in Hr by lia.
        now apply join_nl_cons_empty in Hr.
    + intros Hall. exfalso. rewrite Hall in Hc; [discriminate|].
      apply nth_In. lia.
  - split; [|reflexivity]. intros _ line Hl.
    apply (In_nth _ _ EmptyString) in Hl as [j [Hj <-]].
    apply (proj1 (find_seq_none _ _ 0) F). lia.
Qed.

Lemma extract_section_empty_iff_witness :
  String.eqb "zzz" EmptyString = false /\
  (extract_section (join_nl ["a"; "b"]) "zzz" None = EmptyString <->
   (forall line, In line (split_nl (join_nl ["a"; "b"])) ->
                 contains "zzz" line = false)).
Proof.
  split; [reflexivity|].
  apply (extract_section_empty_iff (join_nl ["a"; "b"]) "zzz" None).
  reflexivity.
Defined.

(** ** Further properties of the code *)

Lemma str_append_assoc (a b c : string) : (a ++ b) ++ c = a ++ (b ++ c).
Proof. induction a; simpl; congruence. Qed.

Lemma str_append_cancel_l (a x y : string) : a ++ x = a ++ y -> x = y.
Proof. induction a; simpl; [auto|]. intros H. injection H. auto. Qed.

Lemma prefix_empty (s : string) : prefix EmptyString s = true.
Proof. destruct s; reflexivity. Qed.

Lemma prefix_append (x r : string) : prefix x (x ++ r) = true.
Proof.
  induction x as [|c x IH]; simpl; [apply prefix_empty|].
  destruct (ascii_dec c c); [exact IH|congruence].
Qed.

Lemma contains_empty_l (s : string) : contains EmptyString s = true.
Proof. destruct s; reflexivity. Qed.

Lemma contains_of_prefix (x s : string) : prefix x s = true -> contains x s = true.
Proof. destruct s; simpl; intros H; now rewrite H. Qed.

Lemma contains_prefix_app (x r : string) : contains x (x ++ r) = true.
Proof. apply contains_of_prefix, prefix_append. Qed.

Lemma contains_under (x p s : string) :
  contains x s = true -> contains x (p ++ s) = true.
Proof.
  induction p as [|c p IH]; simpl; [auto|]. intros H.
  rewrite (IH H). apply orb_true_r.
Qed.

Lemma join_nl_cons (x : string) (l : list string) :
  join_nl (x :: l) =
  x ++ match l with [] => EmptyString | _ => String nl (join_nl l) end.
Proof. destruct l; simpl; [now rewrite append_empty_r|reflexivity]. Qed.

Lemma join_nl_firstn (l : list string) (k : nat) :
  exists r, join_nl l = join_nl (firstn k l) ++ r.
Proof.
  revert k. induction l as [|x t IH]; intros k.
  - exists EmptyString. now rewrite firstn_nil.
  - destruct k as [|k].
    + exists (join_nl (x :: t)). reflexivity.
    + cbn [firstn]. rewrite !join_nl_cons.
      destruct (IH k) as [r Hr].
      destruct (firstn k t) as [|y u] eqn:Hf.
      * exists (match t with [] => EmptyString | _ => String nl (join_nl t) end).
        now rewrite append_empty_r.
      * destruct t as [|z t]; [rewrite firstn_nil in Hf; discriminate|].
        exists r. rewrite str_append_assoc. f_equal. rewrite Hr. reflexivity.
Qed.

Lemma join_nl_skipn (l : list string) (i : nat) :
  exists p, join_nl l = p ++ join_nl (skipn i l).
Proof.
  revert i. induction l as [|x t IH]; intros i.
  - exists EmptyString. now rewrite skipn_nil.
  - destruct i as [|i]; [now exists EmptyString|].
    cbn [skipn]. destruct (IH i) as [p Hp].
    rewrite join_nl_cons. destruct t as [|z t].
    + exists x. rewrite skipn_nil. simpl. now rewrite append_empty_r.
    + exists (x ++ String nl p). rewrite str_append_assoc. f_equal.
      rewrite Hp. reflexivity.
Qed.

(** [takewhile p l]: the longest prefix of [l] on which [p] holds. *)
Fixpoint takewhile {A} (p : A -> bool) (l : list A) : list A :=
  match l with
  | [] => []
  | x :: rest => if p x then x :: takewhile p rest else []
  end.

Lemma join_nl_piece (l : list string) (s k : nat) :
  contains (join_nl (firstn k (skipn s l))) (join_nl l) = true.
Proof.
  destruct (join_nl_skipn l s) as [p Hp].
  destruct (join_nl_firstn (skipn s l) k) as [r Hr].
  rewrite Hp, Hr. apply contains_under, contains_prefix_app.
Qed.

Lemma join_nl_suffix (l : list string) (s : nat) :
  contains (join_nl (skipn s l)) (join_nl l) = true.
Proof.
  rewrite <- (firstn_all (skipn s l)). apply join_nl_piece.
Qed.

(** [extract_section] never invents text: whatever it returns (a section or
    [""]) is a contiguous substring of the content. *)
Theorem extract_section_substring
    (content start_marker : string) (end_marker : option string) :
  contains (extract_section content start_marker end_marker) content = true.
Proof.
  rewrite <- (join_split_nl content) at 2.
  unfold extract_section. cbv zeta.
  destruct (find _ (seq 0 _)) as [s|]; [|apply contains_empty_l].
  destruct end_marker as [em|]; [|apply join_nl_suffix].
  destruct (find _ (seq (s + 1) _)) as [e|]; [|apply join_nl_suffix].
  apply join_nl_piece.
Qed.

(** Giving an end marker can only shorten the section: the result with an
    end marker is a prefix of the result without one. *)
Theorem extract_section_end_marker_prefix (content start_marker end_marker : string) :
  prefix (extract_section content start_marker (Some end_marker))
         (extract_section content start_marker None) = true.
Proof.
  unfold extract_section. cbv zeta.
  destruct (find _ (seq 0 _)) as [s|]; [|reflexivity].
  destruct (find _ (seq (s + 1) _)) as [e|].
  - unfold py_slice.
    destruct (join_nl_firstn (skipn s (split_nl content)) (e - s)) as [r Hr].
    rewrite Hr. apply prefix_append.
  - rewrite <- (append_empty_r (join_nl (skipn s (split_nl content)))) at 2.
    apply prefix_append.
Qed.

(** The empty start marker matches the first line, so without an end marker
    the whole content is returned. *)
Theorem extract_section_empty_start_marker (content : string) :
  extract_section content EmptyString None = content.
Proof.
  pose proof (split_nl_nonempty content) as Hne.
  rewrite <- (join_split_nl content) at 2.
  unfold extract_section. cbv zeta.
  destruct (split_nl content) as [|x t]; [contradiction|].
  cbn [length seq find nth]. rewrite contains_empty_l. reflexivity.
Qed.

(** The empty end marker matches the line right after the start line, so
    the section is the start line alone. *)
Theorem extract_section_empty_end_marker
    (content start_marker : string) (start_idx : nat) :
  first_from (contains start_marker) (split_nl content) 0 start_idx = true ->
  extract_section content start_marker (Some EmptyString) =
  nth start_idx (split_nl content) EmptyString.
Proof.
  intros Hs. assert (Hlt : start_idx < length (split_nl content)).
  { unfold first_from in Hs. apply andb_prop in Hs as [Hs _].
    apply andb_prop in Hs as [Hs _]. apply andb_prop in Hs as [_ Hs].
    now apply Nat.ltb_lt in Hs. }
  unfold extract_section. cbv zeta.
  rewrite (first_from_zero_find _ _ _ Hs).
  destruct (length (split_nl content) - (start_idx + 1)) as [|m] eqn:Hm.
  - cbn [seq find].
    rewrite (skipn_nth_cons _ start_idx EmptyString) by lia.
    rewrite skipn_all2 by lia. reflexivity.
  - cbn [seq find]. rewrite contains_empty_l.
    unfold py_slice. rewrite (skipn_nth_cons _ start_idx EmptyString) by lia.
    replace (start_idx + 1 - start_idx) with 1 by lia. reflexivity.
Qed.

Lemma extract_section_empty_end_marker_witness :
  first_from (contains "START")
    (split_nl (join_nl ["x"; "START"; "mid"; "END"])) 0 1 = true /\
  extract_section (join_nl ["x"; "START"; "mid"; "END"]) "START" (Some EmptyString)
  = "START".
Proof.
  split; [reflexivity|].
  apply (extract_section_empty_end_marker (join_nl ["x"; "START"; "mid"; "END"])
           "START" 1); reflexivity.
Defined.

(** [extract_imports] keeps, among the lines before the first terminating
    line, exactly those starting with ["use "] or ["//"]. *)
Theorem extract_imports_closed_form (content : string) :
  extract_imports content =
  join_nl (filter included
             (takewhile (fun x => negb (terminates x)) (split_nl content))).
Proof.
  unfold extract_imports. f_equal.
  induction (split_nl content) as [|x rest IH]; [reflexivity|].
  rewrite harvest_cons. cbn [takewhile]. unfold terminates.
  destruct (included x) eqn:Hi; simpl.
  - rewrite Hi. now f_equal.
  - destruct (truthy (strip x) && negb (startswith (strip x) "//")); simpl;
      [reflexivity|]. now rewrite Hi.
Qed.

(** *** What a section holds *)

Lemma prefix_app_r (x s r : string) : prefix x s = true -> prefix x (s ++ r) = true.
Proof.
  revert s. induction x as [|a x IH]; intros s H; [apply prefix_empty|].
  destruct s as [|b s]; [discriminate H|].
  cbn [String.append]. rewrite prefix_cons in *.
  destruct (ascii_dec a b); [now apply IH|discriminate H].
Qed.

Lemma contains_app_r (x s r : string) : contains x s = true -> contains x (s ++ r) = true.
Proof.
  induction s as [|c s IH]; intros H.
  - apply contains_empty in H. subst. apply contains_empty_l.
  - cbn [String.append contains] in *. apply orb_true_iff in H as [H|H].
    + pose proof (prefix_app_r _ _ r H) as H'. cbn [String.append] in H'.
      now rewrite H'.
    + rewrite (IH H). apply orb_true_r.
Qed.

Lemma in_firstn_sub {A} (x : A) (k : nat) (l : list A) : In x (firstn k l) -> In x l.
Proof. intros H. rewrite <- (firstn_skipn k l). apply in_or_app. now left. Qed.

Lemma in_skipn_sub {A} (x : A) (k : nat) (l : list A) : In x (skipn k l) -> In x l.
Proof. intros H. rewrite <- (firstn_skipn k l). apply in_or_app. now right. Qed.

(** When some line contains the start marker, the section contains it too
    (whatever the end marker). *)
Theorem extract_section_contains_start_marker
    (content start_marker : string) (end_marker : option string) :
  existsb (contains start_marker) (split_nl content) = true ->
  contains start_marker (extract_section content start_marker end_marker) = true.
Proof.
  intros Hex. unfold extract_section. cbv zeta.
  destruct (find _ (seq 0 _)) as [s|] eqn:Fs.
  - apply find_seq_some in Fs as [Hs [Hc _]].
    assert (Hjoin : forall k, 0 < k ->
              contains start_marker
                (join_nl (firstn k (skipn s (split_nl content)))) = true).
    { intros k Hk. rewrite (skipn_nth_cons _ s EmptyString) by lia.
      destruct k as [|k]; [lia|]. cbn [firstn]. rewrite join_nl_cons.
      now apply contains_app_r. }
    assert (Hall : contains start_marker (join_nl (skipn s (split_nl content))) = true).
    { rewrite <- (firstn_all (skipn s (split_nl content))). apply Hjoin.
      rewrite length_skipn. lia. }
    destruct end_marker as [em|]; [|exact Hall].
    destruct (find _ (seq (s + 1) _)) as [e|] eqn:Fe; [|exact Hall].
    apply find_seq_some in Fe as [He _]. apply Hjoin. lia.
  - exfalso. apply existsb_exists in Hex as [x [Hx Hcx]].
    apply (In_nth _ _ EmptyString) in Hx as [j [Hj <-]].
    rewrite (proj1 (find_seq_none _ _ 0) Fs j) in Hcx; [discriminate|lia].
Qed.

Lemma extract_section_contains_start_marker_witness :
  existsb (contains "fn a") (split_nl (join_nl ["x"; "fn a()"; "y"])) = true /\
  contains "fn a" (extract_section (join_nl ["x"; "fn a()"; "y"]) "fn a" (Some "y"))
  = true.
Proof.
  split; [reflexivity|].
  apply (extract_section_contains_start_marker (join_nl ["x"; "fn a()"; "y"])
           "fn a" (Some "y")); reflexivity.
Defined.

Lemma section_lines (content : string) (l : list string) :
  l <> [] -> (forall x, In x l -> In x (split_nl content)) ->
  split_nl (join_nl l) = l.
Proof.
  intros Hne Hin. apply split_join_nl; [assumption|].
  intros x Hx. apply (split_nl_no_nl content). now apply Hin.
Qed.

(** With an end marker, no line of the section after its first line
    contains the end marker: the section stops at the first end-marker line
    after the start line, or runs to the end when there is none. *)
Theorem extract_section_end_marker_stops
    (content start_marker end_marker : string) (j : nat) :
  0 < j < length (split_nl (extract_section content start_marker (Some end_marker))) ->
  contains end_marker
    (nth j (split_nl (extract_section content start_marker (Some end_marker)))
         EmptyString) = false.
Proof.
  unfold extract_section. cbv zeta.
  destruct (find _ (seq 0 _)) as [s|] eqn:Fs; [|cbn; lia].
  apply find_seq_some in Fs as [Hs _].
  destruct (find _ (seq (s + 1) _)) as [e|] eqn:Fe.
  - apply find_seq_some in Fe as [He [_ Hbefore]].
    unfold py_slice.
    assert (Hlen : length (firstn (e - s) (skipn s (split_nl content))) = e - s)
      by (rewrite length_firstn, length_skipn; lia).
    rewrite (section_lines content).
    2: { intros E. rewrite E in Hlen. simpl in Hlen. lia. }
    2: { intros x Hx. eapply in_skipn_sub, in_firstn_sub. exact Hx. }
    rewrite Hlen. intros Hj.
    rewrite nth_firstn, nth_skipn.
    replace (Nat.ltb j (e - s)) with true by (symmetry; apply Nat.ltb_lt; lia).
    apply Hbefore. lia.
  - pose proof (proj1 (find_seq_none _ _ _) Fe) as Fe'. clear Fe. rename Fe' into Fe.
    assert (Hlen : length (skipn s (split_nl content)) = length (split_nl content) - s)
      by apply length_skipn.
    rewrite (section_lines content).
    2: { intros E. rewrite E in Hlen. simpl in Hlen. lia. }
    2: { intros x Hx. eapply in_skipn_sub. exact Hx. }
    rewrite Hlen. intros Hj. rewrite nth_skipn. apply Fe. lia.
Qed.

Lemma extract_section_end_marker_stops_witness :
  0 < 1 < length (split_nl (extract_section (join_nl ["x"; "START"; "mid"; "END"; "y"])
                              "START" (Some "END"))) /\
  contains "END"
    (nth 1 (split_nl (extract_section (join_nl ["x"; "START"; "mid"; "END"; "y"])
                        "START" (Some "END"))) EmptyString) = false.
Proof.
  split; [vm_compute; lia|].
  apply (extract_section_end_marker_stops (join_nl ["x"; "START"; "mid"; "END"; "y"])
           "START" "END" 1). vm_compute. lia.
Defined.

(** ** The orchestrator *)

(** The part of [main] after the read: the read text is bound to [content]
    and [worker_section], neither of which is used again. *)
Definition main_rest (base_dir : string) : M unit :=
  print "Creating engine/mod.rs..." ;;;
  write_file (manifest_path base_dir) mod_content ;;;
  print "Created engine/mod.rs" ;;;
  print "Manual splitting required due to file complexity." ;;;
  print "Please continue with manual file extraction or use a proper AST parser.".

Lemma main_unfold (base_dir : string) :
  main base_dir =
  (print ("Reading " ++ engine_rs base_dir ++ "...") ;;;
   bind (read_file (engine_rs base_dir)) (fun _ => main_rest base_dir)).
Proof. reflexivity. Qed.

(** Two worlds that differ at most in the text stored at [p] (both have a
    file there or neither has). *)
Definition agree (p : string) (w1 w2 : world) : Prop :=
  (forall q, q <> p -> fs w1 q = fs w2 q) /\
  (fs w1 p = None <-> fs w2 p = None) /\
  env_of w1 = env_of w2.

Definition out_agree (p : string) (o1 o2 : outcome unit) : Prop :=
  match o1, o2 with
  | Ok _ a, Ok _ b => agree p a b
  | Raise a, Raise b => agree p a b
  | _, _ => False
  end.

Definition respects (p : string) (m : M unit) : Prop :=
  forall w1 w2, agree p w1 w2 -> out_agree p (m w1) (m w2).

Lemma respects_bind (p : string) (m k : M unit) :
  respects p m -> respects p k -> respects p (m ;;; k).
Proof.
  intros Hm Hk w1 w2 H. unfold bind. specialize (Hm w1 w2 H).
  destruct (m w1) as [a1 v1|v1], (m w2) as [a2 v2|v2]; simpl in Hm;
    try contradiction; [now apply Hk|exact Hm].
Qed.

Lemma respects_print (p s : string) : respects p (print s).
Proof.
  intros w1 w2 H. pose proof H as [Hfs [Hp He]]. unfold print. rewrite He.
  destruct (stdout_closed (env_of w2)); [exact H|].
  split; [exact Hfs|split; [exact Hp|reflexivity]].
Qed.

Lemma respects_makedirs (p d : string) : respects p (makedirs d).
Proof.
  intros w1 w2 H. pose proof H as [Hfs [Hp He]]. unfold makedirs. rewrite He.
  destruct (String.eqb d EmptyString || dir_err (env_of w2) d); [exact H|].
  split; [exact Hfs|split; [exact Hp|reflexivity]].
Qed.

Lemma agree_update (p q c : string) (e : env) (w1 w2 : world) :
  agree p w1 w2 ->
  agree p (mkWorld (update_fs (fs w1) q c) e)
          (mkWorld (update_fs (fs w2) q c) e).
Proof.
  intros [Hfs [Hp He]]. unfold agree. cbn [fs env_of]. unfold update_fs.
  repeat split.
  - intros r Hr. destruct (String.eqb r q); [reflexivity|auto].
  - destruct (String.eqb p q); [discriminate|]. intros H. now apply Hp.
  - destruct (String.eqb p q); [discriminate|]. intros H. now apply Hp.
Qed.

Lemma respects_write_file (p q c : string) : respects p (write_file q c).
Proof.
  unfold write_file. apply respects_bind; [apply respects_makedirs|].
  intros w1 w2 H. pose proof H as [_ [_ He]]. rewrite He.
  destruct (open_err (env_of w2) q); [exact H|].
  destruct (write_fail (env_of w2) q); simpl; now apply agree_update.
Qed.

Lemma respects_read_then (p q : string) (k : M unit) :
  respects p k -> respects p (bind (read_file q) (fun _ => k)).
Proof.
  intros Hk w1 w2 H. pose proof H as [Hfs [Hp He]].
  unfold bind, read_file. rewrite He.
  destruct (read_err (env_of w2) q); [exact H|].
  destruct (String.eqb_spec q p) as [->|Hq].
  - destruct (fs w1 p) eqn:E1, (fs w2 p) eqn:E2.
    + now apply Hk.
    + pose proof (proj2 Hp eq_refl). discriminate.
    + pose proof (proj1 Hp eq_refl). discriminate.
    + exact H.
  - rewrite (Hfs q Hq). destruct (fs w2 q); [now apply Hk|exact H].
Qed.

Lemma respects_main (base_dir : string) :
  respects (engine_rs base_dir) (main base_dir).
Proof.
  rewrite main_unfold. apply respects_bind; [apply respects_print|].
  apply respects_read_then. unfold main_rest.
  repeat (apply respects_bind;
    [first [apply respects_print | apply respects_write_file]|]).
  apply respects_print.
Qed.

(** *** What a successful run leaves behind *)

Lemma bind_ok_inv {A B} (m : M A) (f : A -> M B) (w r : world) (b : B) :
  bind m f w = Ok b r -> exists a w', m w = Ok a w' /\ f a w' = Ok b r.
Proof.
  unfold bind. destruct (m w) as [a w'|w']; [|discriminate].
  intros H. now exists a, w'.
Qed.

Lemma print_ok_inv (s : string) (w r : world) (u : unit) :
  print s w = Ok u r ->
  fs r = fs w /\ dirs (env_of r) = dirs (env_of w).
Proof.
  unfold print. destruct (stdout_closed (env_of w)); [discriminate|].
  intros H. injection H as _ <-. split; reflexivity.
Qed.

Lemma read_ok_inv (p : string) (w r : world) (c : string) :
  read_file p w = Ok c r -> r = w.
Proof.
  unfold read_file. destruct (read_err (env_of w) p); [discriminate|].
  destruct (fs w p); [|discriminate]. intros H. now injection H as _ <-.
Qed.

Lemma write_file_ok_inv (p c : string) (w r : world) (u : unit) :
  write_file p c w = Ok u r ->
  fs r = update_fs (fs w) p c /\
  dirs (env_of r) = add_dirs (dirs (env_of w)) (dir_chain (dirname p)) /\
  stdout (env_of r) = stdout (env_of w).
Proof.
  unfold write_file, bind, makedirs.
  destruct (String.eqb (dirname p) EmptyString || dir_err (env_of w) (dirname p));
    [discriminate|].
  cbn [fs env_of with_dirs open_err write_fail].
  destruct (open_err (env_of w) p); [discriminate|].
  destruct (write_fail (env_of w) p); [discriminate|].
  intros H. injection H as _ <-. cbn [fs env_of dirs stdout]. auto.
Qed.

(** After a successful [main], the files are the old ones with the
    manifest stored, and the directories are the old ones with the
    manifest's directory chain added. *)
Lemma main_ok_inv (base_dir : string) (w r : world) (u : unit) :
  main base_dir w = Ok u r ->
  fs r = update_fs (fs w) (manifest_path base_dir) mod_content /\
  dirs (env_of r) =
    add_dirs (dirs (env_of w)) (dir_chain (dirname (manifest_path base_dir))).
Proof.
  rewrite main_unfold. unfold main_rest. intros H.
  apply bind_ok_inv in H as [[] [w1 [H1 H]]].
  apply bind_ok_inv in H as [c [w2 [H2 H]]].
  apply bind_ok_inv in H as [[] [w3 [H3 H]]].
  apply bind_ok_inv in H as [[] [w4 [H4 H]]].
  apply bind_ok_inv in H as [[] [w5 [H5 H]]].
  apply bind_ok_inv in H as [[] [w6 [H6 H]]].
  apply print_ok_inv in H1 as [F1 D1].
  apply read_ok_inv in H2. subst w2.
  apply print_ok_inv in H3 as [F3 D3].
  apply write_file_ok_inv in H4 as [F4 [D4 _]].
  apply print_ok_inv in H5 as [F5 D5].
  apply print_ok_inv in H6 as [F6 D6].
  apply print_ok_inv in H as [F D].
  rewrite F, F6, F5, F4, F3, F1, D, D6, D5, D4, D3, D1. auto.
Qed.

Lemma engine_rs_not_manifest (base_dir : string) :
  engine_rs base_dir <> manifest_path base_dir.
Proof.
  unfold engine_rs, manifest_path, engine_dir. rewrite str_append_assoc.
  intros H. apply str_append_cancel_l in H. discriminate H.
Qed.

Lemma in_dir_chain_aux (s acc : string) : In (acc ++ s) (dir_chain_aux acc s).
Proof.
  revert acc. induction s as [|c rest IH]; intros acc.
  - rewrite append_empty_r. now left.
  - cbn [dir_chain_aux].
    assert (E : acc ++ String c rest = (acc ++ String c EmptyString) ++ rest)
      by (rewrite str_append_assoc; reflexivity).
    rewrite E. destruct (Ascii.eqb c "/"%char).
    + apply in_or_app. right. apply IH.
    + apply IH.
Qed.

Lemma in_dir_chain (d : string) : In d (dir_chain d).
Proof. exact (in_dir_chain_aux d EmptyString). Qed.

Lemma add_dirs_keep (x : string) (ds l : list string) :
  In x ds -> In x (add_dirs ds l).
Proof.
  revert ds. induction l as [|d rest IH]; intros ds Hx; [exact Hx|].
  cbn [add_dirs]. apply IH.
  destruct (existsb (String.eqb d) ds); [exact Hx|now right].
Qed.

Lemma add_dirs_adds (x : string) (ds l : list string) :
  In x l -> In x (add_dirs ds l).
Proof.
  revert ds. induction l as [|d rest IH]; intros ds Hx; [destruct Hx|].
  cbn [add_dirs]. destruct Hx as [->|Hx]; [|now apply IH].
  apply add_dirs_keep. destruct (existsb (String.eqb x) ds) eqn:E.
  - apply existsb_exists in E as [y [Hy Ey]].
    apply String.eqb_eq in Ey. now subst y.
  - now left.
Qed.



(** A sample project: [engine.rs] exists, nothing fails. *)
Definition sample_env : env :=
  mkEnv [] [] (fun _ => false) (fun _ => false) (fun _ => false)
        (fun _ => false) false.

Definition sample_world : world :=
  mkWorld (update_fs (fun _ => None) (engine_rs ".") "fn spawn_worker() {}")
          sample_env.

Definition sample_result : world :=
  match main "." sample_world with Ok _ r => r | Raise r => r end.

(** *** Claims and properties of [main] *)

(** C9: the text [main] stores at [engine/mod.rs] does not depend on the
    content of [engine.rs].  Take any world and put two different texts at
    [engine.rs]: either both runs raise, or both succeed and store the
    constant [mod_content] at the manifest.  In both cases the two final
    worlds print the same lines, have the same directories and the same
    answers from the system, and hold the same text at every path but
    [engine.rs] (the manifest included). *)
Theorem main_manifest_independent (base_dir c1 c2 : string) (w : world) :
  let w1 := mkWorld (update_fs (fs w) (engine_rs base_dir) c1) (env_of w) in
  let w2 := mkWorld (update_fs (fs w) (engine_rs base_dir) c2) (env_of w) in
  (exists r1 r2,
      main base_dir w1 = Raise r1 /\ main base_dir w2 = Raise r2 /\
      env_of r1 = env_of r2 /\
      (forall p, p <> engine_rs base_dir -> fs r1 p = fs r2 p)) \/
  (exists r1 r2,
      main base_dir w1 = Ok tt r1 /\ main base_dir w2 = Ok tt r2 /\
      fs r1 (manifest_path base_dir) = Some mod_content /\
      fs r2 (manifest_path base_dir) = Some mod_content /\
      env_of r1 = env_of r2 /\
      (forall p, p <> engine_rs base_dir -> fs r1 p = fs r2 p)).
Proof.
  intros w1 w2.
  assert (Hag : agree (engine_rs base_dir) w1 w2).
  { unfold agree, w1, w2. cbn [fs env_of]. unfold update_fs.
    split; [|split; [|reflexivity]].
    - intros q Hq. apply String.eqb_neq in Hq. now rewrite Hq.
    - rewrite String.eqb_refl. split; discriminate. }
  pose proof (respects_main base_dir w1 w2 Hag) as Ho.
  destruct (main base_dir w1) as [[] r1|r1] eqn:E1,
           (main base_dir w2) as [[] r2|r2] eqn:E2;
    cbn [out_agree] in Ho; try contradiction; destruct Ho as [Hfs [_ He]].
  - right. exists r1, r2.
    pose proof (main_ok_inv _ _ _ _ E1) as [F1 _].
    pose proof (main_ok_inv _ _ _ _ E2) as [F2 _].
    refine (conj eq_refl (conj eq_refl (conj _ (conj _ (conj He Hfs))))).
    + rewrite F1. unfold update_fs. now rewrite String.eqb_refl.
    + rewrite F2. unfold update_fs. now rewrite String.eqb_refl.
  - left. exists r1, r2. auto.
Qed.

(** The sample run succeeds, so the second case of C9 is reached. *)
Lemma main_manifest_independent_witness :
  main "." sample_world = Ok tt sample_result /\
  let w := sample_world in
  let w1 := mkWorld (update_fs (fs w) (engine_rs ".") "fn a() {}") (env_of w) in
  let w2 := mkWorld (update_fs (fs w) (engine_rs ".") "fn b() {}") (env_of w) in
  (exists r1 r2,
      main "." w1 = Raise r1 /\ main "." w2 = Raise r2 /\
      env_of r1 = env_of r2 /\
      (forall p, p <> engine_rs "." -> fs r1 p = fs r2 p)) \/
  (exists r1 r2,
      main "." w1 = Ok tt r1 /\ main "." w2 = Ok tt r2 /\
      fs r1 (manifest_path ".") = Some mod_content /\
      fs r2 (manifest_path ".") = Some mod_content /\
      env_of r1 = env_of r2 /\
      (forall p, p <> engine_rs "." -> fs r1 p = fs r2 p)).
Proof.
  assert (E0 : main "." sample_world = Ok tt sample_result)
    by (vm_compute; reflexivity).
  split; [exact E0|].
  exact (main_manifest_independent "." "fn a() {}" "fn b() {}" sample_world).
Defined.

(** A successful [main] stores [mod_content] at [engine/mod.rs] and changes
    no other file; in particular [engine.rs] is left as it was. *)
Theorem main_only_writes_manifest (base_dir : string) (w r : world) :
  main base_dir w = Ok tt r ->
  fs r (manifest_path base_dir) = Some mod_content /\
  fs r (engine_rs base_dir) = fs w (engine_rs base_dir) /\
  (forall p, p <> manifest_path base_dir -> fs r p = fs w p).
Proof.
  intros H. apply main_ok_inv in H as [F _]. rewrite F. unfold update_fs.
  rewrite String.eqb_refl. split; [reflexivity|split].
  - destruct (String.eqb_spec (engine_rs base_dir) (manifest_path base_dir))
      as [E|_]; [exfalso; exact (engine_rs_not_manifest base_dir E)|reflexivity].
  - intros p Hp. apply String.eqb_neq in Hp. now rewrite Hp.
Qed.

Lemma main_only_writes_manifest_witness :
  main "." sample_world = Ok tt sample_result /\
  fs sample_result (manifest_path ".") = Some mod_content /\
  fs sample_result (engine_rs ".") = fs sample_world (engine_rs ".") /\
  (forall p, p <> manifest_path "." -> fs sample_result p = fs sample_world p).
Proof.
  assert (E0 : main "." sample_world = Ok tt sample_result)
    by (vm_compute; reflexivity).
  split; [exact E0|].
  exact (main_only_writes_manifest "." sample_world sample_result E0).
Defined.

(** When [engine.rs] does not exist, [main] raises at the read, before any
    directory or file is made: the files and directories are as before. *)
Theorem main_missing_source_writes_nothing (base_dir : string) (w : world) :
  fs w (engine_rs base_dir) = None ->
  exists r, main base_dir w = Raise r /\
            (forall p, fs r p = fs w p) /\
            dirs (env_of r) = dirs (env_of w).
Proof.
  intros Hn. rewrite main_unfold. unfold bind at 1, print.
  destruct (stdout_closed (env_of w)).
  - exists w. auto.
  - unfold bind, read_file. cbn [fs env_of read_err with_stdout dirs].
    destruct (read_err (env_of w) (engine_rs base_dir)).
    + eexists. split; [reflexivity|]. cbn [fs env_of dirs with_stdout]. auto.
    + rewrite Hn. eexists. split; [reflexivity|]. cbn [fs env_of dirs with_stdout]. auto.
Qed.

Lemma main_missing_source_writes_nothing_witness :
  fs sample_world (engine_rs "/tmp") = None /\
  exists r, main "/tmp" sample_world = Raise r /\
            (forall p, fs r p = fs sample_world p) /\
            dirs (env_of r) = dirs (env_of sample_world).
Proof.
  split; [vm_compute; reflexivity|].
  apply main_missing_source_writes_nothing. vm_compute. reflexivity.
Defined.

(** When [write_file] succeeds, the text is stored at the path and every
    other path keeps its text; the parent directory [dirname(path)] exists
    afterwards, no directory is lost, and nothing is printed. *)
Theorem write_file_ok_effect (p c : string) (w r : world) :
  write_file p c w = Ok tt r ->
  fs r p = Some c /\
  (forall q, q <> p -> fs r q = fs w q) /\
  In (dirname p) (dirs (env_of r)) /\
  (forall d, In d (dirs (env_of w)) -> In d (dirs (env_of r))) /\
  stdout (env_of r) = stdout (env_of w).
Proof.
  intros H. apply write_file_ok_inv in H as [F [D O]].
  rewrite F, D. unfold update_fs. rewrite String.eqb_refl.
  split; [reflexivity|split; [|split; [|split; [|exact O]]]].
  - intros q Hq. apply String.eqb_neq in Hq. now rewrite Hq.
  - apply add_dirs_adds, in_dir_chain.
  - intros d Hd. now apply add_dirs_keep.
Qed.

Lemma write_file_ok_effect_witness :
  write_file "out/a.txt" "hi" sample_world
    = Ok tt (match write_file "out/a.txt" "hi" sample_world with
             | Ok _ r => r | Raise r => r end) /\
  let r := match write_file "out/a.txt" "hi" sample_world with
           | Ok _ r => r | Raise r => r end in
  fs r "out/a.txt" = Some "hi" /\
  (forall q, q <> "out/a.txt" -> fs r q = fs sample_world q) /\
  In (dirname "out/a.txt") (dirs (env_of r)) /\
  (forall d, In d (dirs (env_of sample_world)) -> In d (dirs (env_of r))) /\
  stdout (env_of r) = stdout (env_of sample_world).
Proof.
  assert (E : write_file "out/a.txt" "hi" sample_world
    = Ok tt (match write_file "out/a.txt" "hi" sample_world with
             | Ok _ r => r | Raise r => r end)) by (vm_compute; reflexivity).
  split; [exact E|]. exact (write_file_ok_effect _ _ _ _ E).
Defined.



